(** * web-dev-basics: the event wiring of [src/main.js]

    A shallow embedding of the three listeners registered by [main.js]:
    the chip-selection listener (card filter and map filter expression),
    the debounced hover callback (highlight and detail panel), and the
    pointer-move listener's failure handling. *)

From Stdlib Require Import List String Ascii ZArith Bool Arith Lia Permutation.
Import ListNotations.
Open Scope string_scope.
Open Scope list_scope.

(** ** JavaScript strings and arrays *)

Module Js.

(** [s.replace(pat, rep)] with one-character string arguments: only the
    first occurrence of [pat] is replaced. *)
Fixpoint replace (pat rep : ascii) (s : string) : string :=
  match s with
  | EmptyString => EmptyString
  | String c s' =>
      if Ascii.eqb c pat then String rep s' else String c (replace pat rep s')
  end.

(** [arr.includes(x)] on an array of strings. *)
Definition includes (arr : list string) (x : string) : bool :=
  existsb (String.eqb x) arr.

(** [arr.join(sep)] on an array of strings. *)
Fixpoint join (sep : string) (arr : list string) : string :=
  match arr with
  | [] => ""
  | [x] => x
  | x :: rest => (x ++ sep ++ join sep rest)%string
  end.

(** An optional value as an array of at most one entry. *)
Definition optList {A} (o : option A) : list A :=
  match o with
  | Some a => [a]
  | None => []
  end.

End Js.

(** ** The list view *)

Module ListView.

(** Modelled from the spec: the Feature Record produced by
    [normalizeFeatureData] of [list-view/list-view], which is not among the
    sources.  [main.js] reads only [products]. *)
Record FeatureRecord := {
  rec_id : Z;
  rec_name : string;
  rec_description : string;
  rec_location : string;
  rec_main_products : string;
  products : list string;
  rec_website : string;
  rec_email : string
}.

(** Children of the [.card-container] element. *)
Inductive Node :=
| TextNode (data : string)
| Card (f : FeatureRecord).

(** Modelled from the spec: [displayCard] of [list-view/list-view] (not
    among the sources) projects a record into a card appended to the
    container. *)
Definition displayCard (container : list Node) (f : FeatureRecord) : list Node :=
  container ++ [Card f].

End ListView.

(** ** The chip-selection listener *)

Module FilterHandler.
Import ListView.

(** A selected chip of the chip group; only its [value] is read. *)
Record Chip := { value : string }.

Record FeatureFilter := { where_ : string }.

Record FeatureEffect := {
  filter_ : FeatureFilter;
  includedEffect : string;
  excludedEffect : string
}.

(** What the listener writes: the container's children and the layer
    view's [featureEffect]. *)
Record Page := {
  container : list Node;
  featureEffect : option FeatureEffect
}.

Definition productFilter (selectedItems : list Chip) : list string :=
  map value selectedItems.

Definition featureFilter (productFilter : list string) : FeatureFilter :=
  {| where_ := ("Main_Products LIKE '%" ++ Js.join ", " productFilter ++ "%'")%string |}.

Definition isMatch (productFilter : list string) (feature : FeatureRecord) : bool :=
  Nat.eqb
    (List.length (filter (fun product => Js.includes productFilter (Js.replace " " "_" product))
                         (products feature)))
    (List.length productFilter).

(** [features.forEach(...)]: cards are appended in the order of [features]. *)
Definition displayMatches (productFilter : list string)
    (features : list FeatureRecord) (container : list Node) : list Node :=
  fold_left (fun c feature => if isMatch productFilter feature then displayCard c feature else c)
            features container.

(** The [calciteChipGroupSelect] listener. [container.replaceChildren("")]
    leaves one empty text node. *)
Definition onChipGroupSelect (features : list FeatureRecord)
    (selectedItems : list Chip) (p : Page) : Page :=
  let cleared := [TextNode ""] in
  let pf := productFilter selectedItems in
  {| container := displayMatches pf features cleared;
     featureEffect := Some {| filter_ := featureFilter pf;
                              includedEffect := "bloom(10%)";
                              excludedEffect := "sepia(100%) opacity(30%)" |} |}.

(** The cards shown in a container, in order. *)
Definition cards (c : list Node) : list FeatureRecord :=
  flat_map (fun n => match n with Card f => [f] | TextNode _ => [] end) c.

(** The display-safe forms of a record's categories, as the listener
    compares them with chip values. *)
Definition displaySafe (feature : FeatureRecord) : list string :=
  map (Js.replace " " "_") (products feature).

(** Every selected value is a category of the record (plain superset). *)
Definition supersetOf (selected : list string) (categories : list string) : bool :=
  forallb (Js.includes categories) selected.

End FilterHandler.

(** ** The layer view's filter expression

    The [where] string is evaluated by the SDK's SQL engine on the
    attributes of each feature.  The listener builds one shape of
    expression only, [Main_Products LIKE '<pattern>'], and this module
    gives that shape its standard SQL reading: in a pattern [%] stands for
    any run of characters, [_] for any single character, and every other
    character for itself. *)

Module Sql.

Fixpoint like (pat : string) : string -> bool :=
  match pat with
  | EmptyString => fun s => match s with EmptyString => true | String _ _ => false end
  | String p pat' =>
      if Ascii.eqb p "%" then
        fix star (s : string) : bool :=
          like pat' s || match s with EmptyString => false | String _ s' => star s' end
      else if Ascii.eqb p "_" then
        fun s => match s with EmptyString => false | String _ s' => like pat' s' end
      else
        fun s => match s with
                 | EmptyString => false
                 | String c s' => Ascii.eqb c p && like pat' s'
                 end
  end.

Fixpoint stripPrefix (p s : string) : option string :=
  match p, s with
  | EmptyString, _ => Some s
  | String a p', String b s' => if Ascii.eqb a b then stripPrefix p' s' else None
  | String _ _, EmptyString => None
  end.

(** The text before a closing quote that ends the string. *)
Fixpoint stripClosingQuote (s : string) : option string :=
  match s with
  | EmptyString => None
  | String c EmptyString => if Ascii.eqb c "'" then Some EmptyString else None
  | String c s' => option_map (String c) (stripClosingQuote s')
  end.

Fixpoint hasQuote (s : string) : bool :=
  match s with
  | EmptyString => false
  | String c s' => Ascii.eqb c "'" || hasQuote s'
  end.

(** The value of [Main_Products LIKE '<pattern>'] on a feature whose
    [Main_Products] attribute is [main_products]; [None] for any other
    text, a quote inside the literal included. *)
Definition evalWhere (where_ : string) (main_products : string) : option bool :=
  match stripPrefix "Main_Products LIKE '" where_ with
  | Some rest =>
      match stripClosingQuote rest with
      | Some pat => if hasQuote pat then None else Some (like pat main_products)
      | None => None
      end
  | None => None
  end.

(** [v] occurs in [s] as a contiguous run. *)
Definition occursIn (v s : string) : Prop :=
  exists pre post, s = (pre ++ v ++ post)%string.

(** Some contiguous run of [s] matches the pattern [pat]. *)
Definition likeSomewhere (pat s : string) : Prop :=
  exists pre mid post, s = (pre ++ mid ++ post)%string /\ like pat mid = true.

(** A pattern without wildcards. *)
Fixpoint plain (pat : string) : bool :=
  match pat with
  | EmptyString => true
  | String c pat' => negb (Ascii.eqb c "%") && negb (Ascii.eqb c "_") && plain pat'
  end.

End Sql.

(** ** The debounced hover callback *)

Module HoverSync.

(** Attribute values.  Numbers are the integers an object-id field holds. *)
Inductive JsVal :=
| JUndefined
| JNull
| JNum (n : Z)
| JStr (s : string).

(** [!v] is [negb (truthy v)]. *)
Definition truthy (v : JsVal) : bool :=
  match v with
  | JUndefined | JNull => false
  | JNum n => negb (Z.eqb n 0)
  | JStr s => negb (String.eqb s "")
  end.

(** [a === b] *)
Definition strictEq (a b : JsVal) : bool :=
  match a, b with
  | JUndefined, JUndefined => true
  | JNull, JNull => true
  | JNum n, JNum m => Z.eqb n m
  | JStr s, JStr t => String.eqb s t
  | _, _ => false
  end.

Record PopupTemplate := { title : string }.

Record Layer := {
  popupTemplate : option PopupTemplate;
  objectIdField : string
}.

Record Graphic := {
  attributes : list (string * JsVal);
  layer : Layer
}.

(** One entry of [hitTest.results]. *)
Record ViewHit := { graphic : Graphic }.

(** [attributes[key]]: [undefined] when the key is absent. *)
Fixpoint getAttribute (attrs : list (string * JsVal)) (key : string) : JsVal :=
  match attrs with
  | [] => JUndefined
  | (k, v) :: rest => if String.eqb k key then v else getAttribute rest key
  end.

(** What [feature.graphic] holds: the [defaultGraphic] object or a hit graphic. *)
Inductive PanelGraphic :=
| defaultGraphic
| hitGraphic (g : Graphic).

(** What the variable [objectId] holds: an attribute value ([undefined]
    before the first run) or, after [objectId = feature.graphic =
    defaultGraphic], the [defaultGraphic] object itself. *)
Inductive ObjectIdVar :=
| idDefaultGraphic
| idValue (v : JsVal).

(** [objectId !== newId]; an object is never equal to an attribute value. *)
Definition strictNeq (o : ObjectIdVar) (newId : JsVal) : bool :=
  match o with
  | idDefaultGraphic => true
  | idValue v => negb (strictEq v newId)
  end.

(** Handles returned by [layerView.highlight]. *)
Definition Handle := nat.

(** The layer view: the highlights now drawn, each under its handle, and
    the next handle to hand out. *)
Record LayerView := {
  highlights : list (Handle * Graphic);
  nextHandle : Handle
}.

(** [csaPickupsLayerView.highlight(g)] *)
Definition lvHighlight (lv : LayerView) (g : Graphic) : Handle * LayerView :=
  (nextHandle lv,
   {| highlights := (nextHandle lv, g) :: highlights lv;
      nextHandle := S (nextHandle lv) |}).

(** [handle.remove()]; removing twice does nothing more. *)
Definition lvRemove (lv : LayerView) (h : Handle) : LayerView :=
  {| highlights := filter (fun hg => negb (Nat.eqb (fst hg) h)) (highlights lv);
     nextHandle := nextHandle lv |}.

(** [highlight?.remove()] *)
Definition removeOpt (lv : LayerView) (highlight : option Handle) : LayerView :=
  match highlight with
  | Some h => lvRemove lv h
  | None => lv
  end.

(** The closure variables [highlight] and [objectId], the panel's
    [feature.graphic], and the layer view they act on. *)
Record State := {
  highlight : option Handle;
  objectId : ObjectIdVar;
  feature_graphic : PanelGraphic;
  layerView : LayerView
}.

(** The state when the listeners are registered. *)
Definition initial : State :=
  {| highlight := None;
     objectId := idValue JUndefined;
     feature_graphic := defaultGraphic;
     layerView := {| highlights := []; nextHandle := 0 |} |}.

Section Callback.

Variable csaPickupsLayer : Layer.

(** [result.graphic.layer.popupTemplate] is truthy. *)
Definition eligible (result : ViewHit) : bool :=
  match popupTemplate (layer (graphic result)) with
  | Some _ => true
  | None => false
  end.

(** [results] *)
Definition results (hitTestResults : list ViewHit) : list ViewHit :=
  filter eligible hitTestResults.

(** [results[0]] *)
Definition result (hitTestResults : list ViewHit) : option ViewHit :=
  hd_error (results hitTestResults).

(** [result?.graphic.attributes[csaPickupsLayer.objectIdField]] *)
Definition newId (hitTestResults : list ViewHit) : JsVal :=
  match result hitTestResults with
  | None => JUndefined
  | Some r => getAttribute (attributes (graphic r)) (objectIdField csaPickupsLayer)
  end.

(** The callback from the resolution of [mapElement.hitTest] on: it runs
    without suspension, and nothing in it asks whether a later event is
    pending. *)
Definition graphicUpdate (s : State) (hitTestResults : list ViewHit) : State :=
  let id := newId hitTestResults in
  if negb (truthy id) then
    {| highlight := highlight s;
       objectId := idDefaultGraphic;
       feature_graphic := defaultGraphic;
       layerView := removeOpt (layerView s) (highlight s) |}
  else if strictNeq (objectId s) id then
    match result hitTestResults with
    | Some r =>
        let lv := removeOpt (layerView s) (highlight s) in
        let (h, lv') := lvHighlight lv (graphic r) in
        {| highlight := Some h;
           objectId := idValue id;
           feature_graphic := hitGraphic (graphic r);
           layerView := lv' |}
    | None => s (* not reached: a truthy [newId] comes from a result *)
    end
  else s.

(** The Hover Sync state machine read off the stored id. *)
Inductive HoverState :=
| NoSelection
| Selected (id : JsVal).

Definition hoverState (s : State) : HoverState :=
  match objectId s with
  | idValue v => if truthy v then Selected v else NoSelection
  | idDefaultGraphic => NoSelection
  end.

(** The state after a sequence of completed callback runs. *)
Definition afterRuns (runs : list (list ViewHit)) : State :=
  fold_left graphicUpdate runs initial.

(** The panel and the drawn highlight agree: both default, or one
    highlight drawn on the very graphic the panel shows. *)
Definition inSync (s : State) : Prop :=
  (feature_graphic s = defaultGraphic /\ highlights (layerView s) = [])
  \/ (exists h g, feature_graphic s = hitGraphic g
                  /\ highlights (layerView s) = [(h, g)]).

(** [inSync], with the variable [highlight] holding the handle of the
    highlight drawn. *)
Definition tracked (s : State) : Prop :=
  (feature_graphic s = defaultGraphic /\ highlights (layerView s) = [])
  \/ (exists h g, feature_graphic s = hitGraphic g
                  /\ highlights (layerView s) = [(h, g)]
                  /\ highlight s = Some h).

End Callback.

End HoverSync.

(** ** The debounced callback under pointer events

    [promiseUtils.debounce] is the SDK's.  It is modelled as [main.js]
    relies on it: the callback is not invoked while an earlier invocation
    is pending; a call made meanwhile waits, taking the place of any call
    already waiting, whose promise is rejected with an abort error; when
    the pending invocation settles, the waiting call is invoked.  The
    callback takes no abort signal and checks no token, so a hit-test that
    was started always runs [graphicUpdate] when it resolves. *)

Module Debounce.
Import HoverSync.

(** [event.detail] of [arcgisViewPointerMove]: the screen point. *)
Record PointerEvent := { x : Z; y : Z }.

Record Sys := {
  hover : State;
  (** the invocation awaiting its hit-test *)
  running : option PointerEvent;
  (** the latest call made while one was running *)
  queued : option PointerEvent;
  (** events whose hit-test resolved, with its results, oldest first *)
  applied : list (PointerEvent * list ViewHit);
  (** events whose promise was rejected with an abort error *)
  aborted : list PointerEvent
}.

Inductive Input :=
| PointerMove (e : PointerEvent)
| HitTestResolved (hitTestResults : list ViewHit).

Definition start : Sys :=
  {| hover := initial; running := None; queued := None; applied := []; aborted := [] |}.

Section Callback.

Variable csaPickupsLayer : Layer.

Definition step (s : Sys) (i : Input) : Sys :=
  match i with
  | PointerMove e =>
      match running s with
      | None =>
          {| hover := hover s; running := Some e; queued := queued s;
             applied := applied s; aborted := aborted s |}
      | Some _ =>
          {| hover := hover s; running := running s; queued := Some e;
             applied := applied s; aborted := aborted s ++ Js.optList (queued s) |}
      end
  | HitTestResolved hitTestResults =>
      match running s with
      | None => s
      | Some e =>
          {| hover := graphicUpdate csaPickupsLayer (hover s) hitTestResults;
             running := queued s; queued := None;
             applied := applied s ++ [(e, hitTestResults)];
             aborted := aborted s |}
      end
  end.

Definition run (trace : list Input) (s : Sys) : Sys :=
  fold_left step trace s.

End Callback.




(** [l] is [m] with some entries left out. *)
Inductive Subseq {A : Type} : list A -> list A -> Prop :=
| Subseq_nil : Subseq [] []
| Subseq_skip (a : A) (l m : list A) : Subseq l m -> Subseq l (a :: m)
| Subseq_take (a : A) (l m : list A) : Subseq l m -> Subseq (a :: l) (a :: m).

End Debounce.

(** ** The pointer-move listener *)

Module PointerMove.

Section Listener.

(** Failures, and the SDK's [promiseUtils.isAbortError]. *)
Variable Error : Type.
Variable isAbortError : Error -> bool.

(** How a promise settles.  A rejection of the promise [catch] returns has
    no handler of the page's and goes to the host's default one. *)
Inductive Settled :=
| Fulfilled
| Rejected (error : Error).

(** The arrow function given to [catch]: [throw error] rejects the promise
    [catch] returns; returning fulfils it. *)
Definition onRejected (error : Error) : Settled :=
  if negb (isAbortError error) then Rejected error else Fulfilled.

(** [promise.catch(handler)] *)
Definition catch (promise : Settled) (handler : Error -> Settled) : Settled :=
  match promise with
  | Fulfilled => Fulfilled
  | Rejected error => handler error
  end.

(** The listener, given how [debouncedGraphicUpdate(event.detail)] settles. *)
Definition onPointerMove (debounced : Settled) : Settled :=
  catch debounced onRejected.

End Listener.

Arguments Fulfilled {Error}.
Arguments Rejected {Error} error.
Arguments onRejected {Error} isAbortError error.
Arguments catch {Error} promise handler.
Arguments onPointerMove {Error} isAbortError debounced.

End PointerMove.

(** ** Sample data *)

Module Samples.
Import ListView FilterHandler HoverSync Debounce.

Definition record (id : Z) (name : string) (categories : list string) : FeatureRecord :=
  {| rec_id := id; rec_name := name; rec_description := ""; rec_location := "";
     rec_main_products := Js.join ", " categories; products := categories;
     rec_website := ""; rec_email := "" |}.

Definition chips (values : list string) : list Chip :=
  map (fun v => {| value := v |}) values.

Definition blankPage : Page := {| container := []; featureEffect := None |}.

Definition farmAB : FeatureRecord := record 1 "North Farm" ["A"; "B"].
Definition farmA : FeatureRecord := record 2 "South Farm" ["A"].
Definition flowerFarm : FeatureRecord := record 3 "Petal Farm" ["Cut Flowers"].

Definition csaPickupsLayer : Layer :=
  {| popupTemplate := Some {| title := "{Farm_Name}" |}; objectIdField := "OBJECTID" |}.

Definition plainLayer : Layer :=
  {| popupTemplate := None; objectIdField := "OBJECTID" |}.

Definition pickup (oid : Z) (farm : string) : Graphic :=
  {| attributes := [("OBJECTID", JNum oid); ("Farm_Name", JStr farm)];
     layer := csaPickupsLayer |}.

Definition hit (g : Graphic) : ViewHit := {| graphic := g |}.

Definition basemapHit : ViewHit :=
  {| graphic := {| attributes := [("OBJECTID", JNum 9)]; layer := plainLayer |} |}.


End Samples.

(** ** The view-ready listener: first rendering *)

Module ViewReady.
Import ListView.

(** [features.forEach((feature) => { displayCard(feature); })] on the
    records of the first query. *)
Definition displayAll (features : list FeatureRecord) (container : list Node) : list Node :=
  fold_left displayCard features container.

End ViewReady.

(** ** The stored id and the panel *)

Module HoverInvariant.
Import HoverSync.

Section Callback.

Variable csaPickupsLayer : Layer.

(** The id the callback reads from a graphic. *)
Definition objectIdOf (g : Graphic) : JsVal :=
  getAttribute (attributes g) (objectIdField csaPickupsLayer).

(** The variable [objectId] goes with [feature.graphic]: with the default
    graphic it holds no feature id, with a hit graphic it holds that
    graphic's truthy id. *)
Definition idTracked (s : State) : Prop :=
  match feature_graphic s with
  | defaultGraphic =>
      objectId s = idDefaultGraphic \/ objectId s = idValue JUndefined
  | hitGraphic g =>
      objectId s = idValue (objectIdOf g) /\ truthy (objectIdOf g) = true
  end.

End Callback.

End HoverInvariant.

(** ** The filter expression on a field that may be null *)

Module SqlNull.

(** The [Main_Products] attribute of a feature is a string or null
    ([None]).  On a null field a [LIKE] test is unknown, and a filter does
    not match the feature; an expression that cannot be read has no value
    on any field. *)
Definition evalWhereOn (where_ : string) (main_products : option string) : option bool :=
  match main_products with
  | Some s => Sql.evalWhere where_ s
  | None => option_map (fun _ => false) (Sql.evalWhere where_ "")
  end.

End SqlNull.

(** ** More sample data *)

Module MoreSamples.
Import ListView FilterHandler HoverSync.

(** A hit whose graphic lacks the object-id attribute. *)
Definition anonymousHit : ViewHit :=
  {| graphic := {| attributes := [("Farm_Name", JStr "Nameless Farm")];
                   layer := Samples.csaPickupsLayer |} |}.

Definition sauvie : Graphic := Samples.pickup 7 "Sauvie Farm".

End MoreSamples.

(** * Properties *)

(** ** Strings and arrays *)

Lemma includes_In (arr : list string) (x : string) :
  Js.includes arr x = true <-> In x arr.
Proof.
  unfold Js.includes. rewrite existsb_exists. split.
  - intros [y [Hy Heq]]. apply String.eqb_eq in Heq. now subst.
  - intros H. exists x. split; [assumption | apply String.eqb_refl].
Qed.

Lemma append_assoc (a b c : string) : ((a ++ b) ++ c = a ++ (b ++ c))%string.
Proof. induction a as [|x a IH]; simpl; [reflexivity | now rewrite IH]. Qed.

Lemma append_empty_r (a : string) : (a ++ "" = a)%string.
Proof. induction a as [|x a IH]; simpl; [reflexivity | now rewrite IH]. Qed.

Lemma filter_map_comm {A B} (f : A -> B) (p : B -> bool) (l : list A) :
  map f (filter (fun x => p (f x)) l) = filter p (map f l).
Proof.
  induction l as [|x l IH]; simpl; [reflexivity|].
  destruct (p (f x)); simpl; now rewrite IH.
Qed.

(** ** The chip-selection listener: cards *)

Section FilterCards.
Import ListView FilterHandler.

Lemma displayMatches_filter pf features c :
  displayMatches pf features c = c ++ map Card (filter (isMatch pf) features).
Proof.
  unfold displayMatches. revert c.
  induction features as [|f fs IH]; intros c; simpl.
  - now rewrite app_nil_r.
  - destruct (isMatch pf f); simpl.
    + rewrite IH. unfold displayCard. now rewrite <- app_assoc.
    + apply IH.
Qed.

Lemma cards_map_Card fs : cards (map Card fs) = fs.
Proof. induction fs as [|f fs IH]; simpl; [reflexivity | now rewrite IH]. Qed.

(** The listener shows the records [isMatch] accepts, in their order. *)
Lemma onChipGroupSelect_cards features selectedItems p :
  cards (container (onChipGroupSelect features selectedItems p))
  = filter (isMatch (productFilter selectedItems)) features.
Proof.
  unfold onChipGroupSelect. cbn [container].
  rewrite displayMatches_filter. cbn. apply cards_map_Card.
Qed.

(** Counting the entries of a duplicate-free list that fall in a
    duplicate-free list [sel] reaches [length sel] exactly when [sel] is
    included. *)
Lemma count_eq_length_incl (sel l : list string) :
  NoDup sel -> NoDup l ->
  (List.length (filter (Js.includes sel) l) = List.length sel <-> incl sel l).
Proof.
  intros Hs Hl.
  assert (Hin : forall x, In x (filter (Js.includes sel) l) <-> In x l /\ In x sel).
  { intros x. rewrite filter_In, includes_In. tauto. }
  assert (Hnd : NoDup (filter (Js.includes sel) l)) by now apply NoDup_filter.
  split.
  - intros Hlen x Hx.
    assert (Hincl : incl sel (filter (Js.includes sel) l)).
    { apply NoDup_length_incl; [assumption | lia |].
      intros y Hy. now apply Hin in Hy. }
    apply Hincl in Hx. now apply Hin in Hx.
  - intros Hincl. apply Permutation_length, NoDup_Permutation; try assumption.
    intros x. rewrite Hin. split; [tauto | intros Hx; split; [now apply Hincl | assumption]].
Qed.

Lemma supersetOf_incl sel cats : supersetOf sel cats = true <-> incl sel cats.
Proof.
  unfold supersetOf, incl. rewrite forallb_forall.
  split; intros H x Hx; apply includes_In, H, Hx.
Qed.

Lemma isMatch_supersetOf pf feature :
  NoDup pf -> NoDup (displaySafe feature) ->
  isMatch pf feature = supersetOf pf (displaySafe feature).
Proof.
  intros Hs Hl. unfold isMatch.
  rewrite <- (length_map (Js.replace " " "_")),
    (filter_map_comm (Js.replace " " "_") (Js.includes pf)).
  fold (displaySafe feature).
  destruct (supersetOf pf (displaySafe feature)) eqn:E.
  - apply Nat.eqb_eq, count_eq_length_incl; try assumption.
    now apply supersetOf_incl.
  - apply Nat.eqb_neq. intros Hlen.
    apply count_eq_length_incl, supersetOf_incl in Hlen; try assumption.
    congruence.
Qed.

Lemma isMatch_nil feature : isMatch [] feature = true.
Proof.
  unfold isMatch. cbn [List.length].
  induction (products feature) as [|x l IH]; simpl; [reflexivity | exact IH].
Qed.

Lemma NoDup_map_inj_in {A B} (f : A -> B) (l : list A) :
  (forall a b, In a l -> In b l -> f a = f b -> a = b) ->
  NoDup l -> NoDup (map f l).
Proof.
  intros Hinj Hl. induction Hl as [|x l Hx Hl IH]; simpl; constructor.
  - intros Hin. apply in_map_iff in Hin. destruct Hin as [y [Hy Hin]].
    apply Hx. rewrite <- (Hinj y x); [assumption | now right | now left | assumption].
  - apply IH. intros a b Ha Hb. apply Hinj; now right.
Qed.

Lemma incl_map_inj_in {A B} (f : A -> B) (u l m : list A) :
  (forall a b, In a u -> In b u -> f a = f b -> a = b) ->
  incl l u -> incl m u ->
  (incl (map f l) (map f m) <-> incl l m).
Proof.
  intros Hinj Hl Hm. split; [|apply incl_map].
  intros H x Hx. assert (Hfx : In (f x) (map f m)) by now apply H, in_map.
  apply in_map_iff in Hfx. destruct Hfx as [y [Hy Hin]].
  rewrite <- (Hinj y x); auto.
Qed.

(** C1.  Let the categories in use have pairwise distinct display-safe
    forms (first space replaced by an underscore), let the chips selected
    carry the display-safe forms of a set [selected] of those categories,
    and let every record's category list be a set of those categories.
    Then the listener rebuilds the card list with exactly the records
    whose category list is a superset of [selected]: every selected
    category appears among the record's categories.  With records {A,B}
    and {A}, the selection {A,B} shows only the first. *)
Theorem chip_filter_shows_supersets_of_selection
    (categories : list string) (features : list FeatureRecord)
    (selected : list string) (selectedItems : list Chip) (p : Page) :
  (forall a b, In a categories -> In b categories ->
               Js.replace " " "_" a = Js.replace " " "_" b -> a = b) ->
  NoDup selected ->
  incl selected categories ->
  Forall (fun f => NoDup (products f) /\ incl (products f) categories) features ->
  productFilter selectedItems = map (Js.replace " " "_") selected ->
  cards (container (onChipGroupSelect features selectedItems p))
  = filter (fun f => supersetOf selected (products f)) features.
Proof.
  intros Hinj Hsel Hincl Hfeat Hchips. rewrite onChipGroupSelect_cards, Hchips.
  apply filter_ext_in. intros f Hf.
  rewrite Forall_forall in Hfeat. destruct (Hfeat f Hf) as [Hnd Hcat].
  assert (Hinj_on : forall l, incl l categories ->
            forall a b, In a l -> In b l ->
                        Js.replace " " "_" a = Js.replace " " "_" b -> a = b).
  { intros l Hl a b Ha Hb. apply Hinj; now apply Hl. }
  rewrite isMatch_supersetOf.
  - unfold displaySafe.
    destruct (supersetOf selected (products f)) eqn:E.
    + apply supersetOf_incl, incl_map. now apply supersetOf_incl.
    + destruct (supersetOf (map (Js.replace " " "_") selected)
                           (map (Js.replace " " "_") (products f))) eqn:E'; [|reflexivity].
      apply supersetOf_incl in E'.
      apply (incl_map_inj_in _ categories _ _ Hinj Hincl Hcat), supersetOf_incl in E'.
      congruence.
  - apply NoDup_map_inj_in; [now apply Hinj_on | assumption].
  - apply NoDup_map_inj_in; [now apply Hinj_on | assumption].
Qed.

(** Records with categories {A,B} and {A}, selection {A,B}: only the first
    record is shown. *)
Lemma chip_filter_shows_supersets_of_selection_witness :
  let categories := ["A"; "B"; "Cut Flowers"] in
  let features := [Samples.farmAB; Samples.farmA] in
  let selected := ["A"; "B"] in
  let selectedItems := Samples.chips ["A"; "B"] in
  (forall a b, In a categories -> In b categories ->
               Js.replace " " "_" a = Js.replace " " "_" b -> a = b)
  /\ NoDup selected
  /\ incl selected categories
  /\ Forall (fun f => NoDup (products f) /\ incl (products f) categories) features
  /\ productFilter selectedItems = map (Js.replace " " "_") selected
  /\ cards (container (onChipGroupSelect features selectedItems Samples.blankPage))
     = [Samples.farmAB].
Proof.
  intros categories features selected selectedItems.
  assert (H1 : forall a b, In a categories -> In b categories ->
                           Js.replace " " "_" a = Js.replace " " "_" b -> a = b).
  { intros a b Ha Hb. simpl in Ha, Hb.
    destruct Ha as [<- | [<- | [<- | []]]]; destruct Hb as [<- | [<- | [<- | []]]];
      simpl; intros H; try reflexivity; discriminate H. }
  assert (H2 : NoDup selected).
  { repeat constructor; simpl; intuition discriminate. }
  assert (H3 : incl selected categories).
  { intros x Hx. simpl in *. tauto. }
  assert (H4 : Forall (fun f => NoDup (products f) /\ incl (products f) categories) features).
  { apply Forall_cons; [|apply Forall_cons; [|apply Forall_nil]]; split;
      try (intros x Hx; simpl in *; tauto);
      repeat (apply NoDup_cons; [simpl; intuition discriminate|]); apply NoDup_nil. }
  assert (H5 : productFilter selectedItems = map (Js.replace " " "_") selected)
    by reflexivity.
  split; [exact H1 | split; [exact H2 | split; [exact H3 | split; [exact H4 | split; [exact H5|]]]]].
  rewrite (chip_filter_shows_supersets_of_selection
             categories features selected selectedItems Samples.blankPage H1 H2 H3 H4 H5).
  reflexivity.
Defined.

(** C9.  With no chip selected the listener shows every record. *)
Theorem empty_selection_shows_every_record
    (features : list FeatureRecord) (p : Page) :
  cards (container (onChipGroupSelect features [] p)) = features.
Proof.
  rewrite onChipGroupSelect_cards. cbn [productFilter map].
  induction features as [|f fs IH]; simpl; [reflexivity|].
  rewrite isMatch_nil. now rewrite IH.
Qed.

End FilterCards.

(** ** The chip-selection listener: the map filter *)

Section FilterExpression.
Import FilterHandler Sql.

Lemma like_percent_unfold pat s :
  like (String "%" pat) s
  = like pat s || match s with
                  | EmptyString => false
                  | String _ s' => like (String "%" pat) s'
                  end.
Proof. destruct s; reflexivity. Qed.

(** A leading [%] lets the rest of the pattern match any suffix. *)
Lemma like_percent pat s :
  like (String "%" pat) s = true
  <-> exists pre rest, s = (pre ++ rest)%string /\ like pat rest = true.
Proof.
  induction s as [|c s IH]; rewrite like_percent_unfold, orb_true_iff.
  - split.
    + intros [H | H]; [|discriminate]. now exists EmptyString, EmptyString.
    + intros [pre [rest [Heq H]]]. left.
      destruct pre; [|discriminate]. simpl in Heq. now subst rest.
  - split.
    + intros [H | H].
      * now exists EmptyString, (String c s).
      * apply IH in H. destruct H as [pre [rest [Heq H]]].
        exists (String c pre), rest. simpl. now rewrite Heq.
    + intros [pre [rest [Heq H]]]. destruct pre as [|d pre]; simpl in Heq.
      * left. now subst rest.
      * right. apply IH. injection Heq as _ Heq. now exists pre, rest.
Qed.

(** A trailing [%] lets the rest of the pattern match any prefix. *)
Lemma like_app_percent pat : forall s,
  like (pat ++ "%") s = true
  <-> exists mid post, s = (mid ++ post)%string /\ like pat mid = true.
Proof.
  induction pat as [|p pat IH]; intros s.
  - change (("" ++ "%")%string) with "%". rewrite like_percent. split.
    + intros _. now exists EmptyString, s.
    + intros _. exists s, EmptyString. now rewrite append_empty_r.
  - change ((String p pat ++ "%")%string) with (String p (pat ++ "%")).
    destruct (Ascii.eqb p "%") eqn:Ep; [|destruct (Ascii.eqb p "_") eqn:Eu].
    + apply Ascii.eqb_eq in Ep. subst p. rewrite like_percent. split.
      * intros [pre [rest [Heq H]]]. apply IH in H.
        destruct H as [mid [post [Heq' H]]]. subst.
        exists (pre ++ mid)%string, post. split; [now rewrite append_assoc|].
        apply like_percent. now exists pre, mid.
      * intros [mid' [post [Heq H]]]. apply like_percent in H.
        destruct H as [pre [mid [Heq' H]]]. subst.
        exists pre, (mid ++ post)%string. split; [now rewrite append_assoc|].
        apply IH. now exists mid, post.
    + simpl. rewrite Ep, Eu. destruct s as [|c s].
      * split; [discriminate|]. intros [mid [post [Heq H]]].
        destruct mid; [discriminate H | discriminate Heq].
      * rewrite IH. split.
        -- intros [mid [post [Heq H]]]. exists (String c mid), post.
           simpl. now rewrite Heq.
        -- intros [mid [post [Heq H]]]. destruct mid as [|d mid]; [discriminate H|].
           simpl in Heq. injection Heq as _ Heq. now exists mid, post.
    + simpl. rewrite Ep, Eu. destruct s as [|c s].
      * split; [discriminate|]. intros [mid [post [Heq H]]].
        destruct mid; [discriminate H | discriminate Heq].
      * rewrite andb_true_iff, IH. split.
        -- intros [Hc [mid [post [Heq H]]]]. exists (String c mid), post.
           simpl. rewrite Heq, Hc. now split.
        -- intros [mid [post [Heq H]]]. destruct mid as [|d mid]; [discriminate H|].
           simpl in Heq. injection Heq as Hd Heq. subst d.
           apply andb_true_iff in H. destruct H as [Hc H].
           split; [assumption | now exists mid, post].
Qed.

(** A pattern without wildcards matches itself only. *)
Lemma like_plain pat : forall s,
  plain pat = true -> (like pat s = true <-> s = pat).
Proof.
  induction pat as [|p pat IH]; intros s Hp.
  - destruct s; simpl; split; congruence.
  - simpl in Hp. apply andb_true_iff in Hp. destruct Hp as [Hp Hpat].
    apply andb_true_iff in Hp. destruct Hp as [Ep Eu].
    apply negb_true_iff in Ep, Eu. simpl. rewrite Ep, Eu.
    destruct s as [|c s]; [split; discriminate|].
    rewrite andb_true_iff, (IH s Hpat), Ascii.eqb_eq.
    split; [intros [-> ->]; reflexivity | intros H; injection H; auto].
Qed.

Lemma like_between_percents pat s :
  like (String "%" (pat ++ "%")) s = true <-> likeSomewhere pat s.
Proof.
  rewrite like_percent. unfold likeSomewhere. split.
  - intros [pre [rest [Heq H]]]. apply like_app_percent in H.
    destruct H as [mid [post [Heq' H]]]. subst. now exists pre, mid, post.
  - intros [pre [mid [post [Heq H]]]]. exists pre, (mid ++ post)%string.
    split; [assumption|]. apply like_app_percent. now exists mid, post.
Qed.

Lemma stripClosingQuote_app s : stripClosingQuote (s ++ "'") = Some s.
Proof.
  induction s as [|c s IH]; [reflexivity|].
  change ((String c s ++ "'")%string) with (String c (s ++ "'")).
  cbn [stripClosingQuote]. rewrite IH.
  destruct (s ++ "'")%string eqn:E; [destruct s; discriminate E | reflexivity].
Qed.

Lemma stripPrefix_app p s : stripPrefix p (p ++ s) = Some s.
Proof.
  induction p as [|c p IH]; [reflexivity|].
  simpl. now rewrite Ascii.eqb_refl.
Qed.

Lemma hasQuote_app a b : hasQuote (a ++ b) = hasQuote a || hasQuote b.
Proof.
  induction a as [|c a IH]; simpl; [reflexivity|].
  now rewrite IH, orb_assoc.
Qed.

(** The expression the listener builds is read as one [LIKE] test with the
    joined selection between two [%]. *)
Lemma evalWhere_featureFilter pf main_products :
  hasQuote (Js.join ", " pf) = false ->
  evalWhere (where_ (featureFilter pf)) main_products
  = Some (like (String "%" (Js.join ", " pf ++ "%")) main_products).
Proof.
  intros Hq. unfold evalWhere, featureFilter. cbn [where_].
  replace ("Main_Products LIKE '%" ++ Js.join ", " pf ++ "%'")%string
    with ("Main_Products LIKE '" ++ (String "%" (Js.join ", " pf ++ "%") ++ "'"))%string
    by (simpl; now rewrite append_assoc).
  rewrite stripPrefix_app, stripClosingQuote_app.
  assert (Hq' : hasQuote (String "%" (Js.join ", " pf ++ "%")) = false).
  { change (hasQuote (String "%" (Js.join ", " pf ++ "%")))
      with (hasQuote (Js.join ", " pf ++ "%")).
    now rewrite hasQuote_app, Hq. }
  now rewrite Hq'.
Qed.

(** C2, as amended.  The filter the listener sets on the layer view is the
    single test [Main_Products LIKE '%v1, v2, ..., vn%'] on the selected
    values joined by a comma and a space in selection order (values free
    of quotes): it matches a feature exactly when that joined text, read
    as a pattern, matches a contiguous part of the feature's raw products
    field; for values without wildcard characters, exactly when the joined
    text occurs in the field. *)
Theorem featureFilter_matches_joined_selection
    (features : list ListView.FeatureRecord) (selectedItems : list Chip)
    (p : Page) (main_products : string) :
  hasQuote (Js.join ", " (productFilter selectedItems)) = false ->
  exists e b,
    featureEffect (onChipGroupSelect features selectedItems p) = Some e
    /\ evalWhere (where_ (filter_ e)) main_products = Some b
    /\ (b = true <-> likeSomewhere (Js.join ", " (productFilter selectedItems)) main_products)
    /\ (plain (Js.join ", " (productFilter selectedItems)) = true ->
        (b = true <-> occursIn (Js.join ", " (productFilter selectedItems)) main_products)).
Proof.
  intros Hq. eexists. eexists. split; [reflexivity|]. cbn [filter_].
  split; [now apply evalWhere_featureFilter|].
  split; [apply like_between_percents|].
  intros Hp. rewrite like_between_percents. unfold likeSomewhere, occursIn. split.
  - intros [pre [mid [post [Heq H]]]]. apply (like_plain _ _ Hp) in H.
    subst mid. now exists pre, post.
  - intros [pre [post Heq]]. exists pre, (Js.join ", " (productFilter selectedItems)), post.
    split; [assumption | now apply like_plain].
Qed.

(** Selecting [Eggs] alone matches a field that lists eggs among other
    products. *)
Lemma featureFilter_matches_joined_selection_witness :
  hasQuote (Js.join ", " (productFilter (Samples.chips ["Eggs"]))) = false
  /\ exists e b,
       featureEffect (onChipGroupSelect [] (Samples.chips ["Eggs"]) Samples.blankPage) = Some e
       /\ evalWhere (where_ (filter_ e)) "Eggs, Vegetables" = Some b
       /\ (b = true <-> likeSomewhere (Js.join ", " (productFilter (Samples.chips ["Eggs"])))
                                      "Eggs, Vegetables")
       /\ (plain (Js.join ", " (productFilter (Samples.chips ["Eggs"]))) = true ->
           (b = true <-> occursIn (Js.join ", " (productFilter (Samples.chips ["Eggs"])))
                                  "Eggs, Vegetables")).
Proof.
  split; [reflexivity|].
  apply (featureFilter_matches_joined_selection
           [] (Samples.chips ["Eggs"]) Samples.blankPage "Eggs, Vegetables").
  reflexivity.
Defined.

(** C2 as stated fails: with [Eggs] and [Honey] selected, a feature whose
    products field contains [Eggs] is not matched by the expression. *)
Lemma featureFilter_not_any_of :
  In "Eggs" (productFilter (Samples.chips ["Eggs"; "Honey"]))
  /\ occursIn "Eggs" "Eggs, Vegetables"
  /\ featureEffect (onChipGroupSelect [] (Samples.chips ["Eggs"; "Honey"]) Samples.blankPage)
     = Some {| filter_ := {| where_ := "Main_Products LIKE '%Eggs, Honey%'" |};
               includedEffect := "bloom(10%)";
               excludedEffect := "sepia(100%) opacity(30%)" |}
  /\ evalWhere "Main_Products LIKE '%Eggs, Honey%'" "Eggs, Vegetables" = Some false.
Proof.
  split; [now left|].
  split; [now exists "", ", Vegetables"|].
  split; reflexivity.
Qed.

End FilterExpression.

(** ** The hover callback *)

Section HoverFacts.
Import HoverSync.

Variable csaPickupsLayer : Layer.

Lemma strictEq_refl v : strictEq v v = true.
Proof.
  destruct v; simpl; [reflexivity | reflexivity | apply Z.eqb_refl | apply String.eqb_refl].
Qed.

Lemma strictEq_eq a b : strictEq a b = true <-> a = b.
Proof.
  split; [|intros ->; apply strictEq_refl].
  destruct a, b; simpl; try discriminate; try reflexivity.
  - intros H. apply Z.eqb_eq in H. now subst.
  - intros H. apply String.eqb_eq in H. now subst.
Qed.

Lemma hd_error_filter_find {A} (f : A -> bool) (l : list A) :
  hd_error (filter f l) = find f l.
Proof.
  induction l as [|a l IH]; simpl; [reflexivity|].
  destruct (f a); [reflexivity | exact IH].
Qed.

Lemma result_find rs : result rs = find eligible rs.
Proof. apply hd_error_filter_find. Qed.



(** A truthy [newId] comes from a result. *)
Lemma truthy_newId_result rs :
  truthy (newId csaPickupsLayer rs) = true -> exists r, result rs = Some r.
Proof.
  unfold newId. destruct (result rs) as [r|]; [now exists r | discriminate].
Qed.

(** Removing a highlight twice is removing it once. *)
Lemma removeOpt_idem lv o : removeOpt (removeOpt lv o) o = removeOpt lv o.
Proof.
  destruct o as [h|]; [|reflexivity].
  unfold removeOpt, lvRemove. cbn [highlights nextHandle]. f_equal.
  induction (highlights lv) as [|[h' g] l IH]; [reflexivity|].
  simpl. destruct (Nat.eqb h' h) eqn:E; simpl; [exact IH|].
  rewrite E. simpl. now rewrite IH.
Qed.

Lemma removeOpt_tracked s :
  tracked s -> highlights (removeOpt (layerView s) (highlight s)) = [].
Proof.
  intros [[_ H] | [h [g [_ [H Hh]]]]].
  - destruct (highlight s); simpl; [now rewrite H | assumption].
  - rewrite Hh. simpl. rewrite H. simpl. now rewrite Nat.eqb_refl.
Qed.

Lemma graphicUpdate_tracked s rs :
  tracked s -> tracked (graphicUpdate csaPickupsLayer s rs).
Proof.
  intros Hs. unfold graphicUpdate.
  destruct (truthy (newId csaPickupsLayer rs)); cbn [negb].
  - destruct (strictNeq (objectId s) (newId csaPickupsLayer rs)); [|assumption].
    destruct (result rs) as [r|]; [|assumption].
    right. eexists. exists (graphic r). cbn.
    rewrite (removeOpt_tracked s Hs). repeat split; reflexivity.
  - left. cbn. split; [reflexivity | now apply removeOpt_tracked].
Qed.

Lemma fold_graphicUpdate_tracked runs : forall s,
  tracked s -> tracked (fold_left (graphicUpdate csaPickupsLayer) runs s).
Proof.
  induction runs as [|rs runs IH]; intros s Hs; simpl; [assumption|].
  now apply IH, graphicUpdate_tracked.
Qed.

Lemma afterRuns_tracked runs : tracked (afterRuns csaPickupsLayer runs).
Proof. apply fold_graphicUpdate_tracked. left. now split. Qed.

Lemma tracked_inSync s : tracked s -> inSync s.
Proof.
  intros [H | [h [g [Hp [Hh _]]]]]; [now left | right; now exists h, g].
Qed.

(** C4.  After any sequence of completed callback runs, the panel shows
    the default graphic and no highlight is drawn, or exactly one
    highlight is drawn and it is on the graphic the panel shows (so both
    carry the same feature id). *)
Theorem panel_and_highlight_in_sync (runs : list (list ViewHit)) :
  inSync (afterRuns csaPickupsLayer runs).
Proof. apply tracked_inSync, afterRuns_tracked. Qed.

(** C5.  When the topmost eligible result carries the stored id of a
    Selected state, the callback returns the state as it was: no highlight
    is added, the panel is not assigned.  From any state, a second run on
    results with the same id as the first changes nothing more. *)
Theorem same_id_run_is_noop (s : State) (rs rs' : list ViewHit) :
  newId csaPickupsLayer rs' = newId csaPickupsLayer rs ->
  (hoverState s = Selected (newId csaPickupsLayer rs) ->
   graphicUpdate csaPickupsLayer s rs = s)
  /\ graphicUpdate csaPickupsLayer (graphicUpdate csaPickupsLayer s rs) rs'
     = graphicUpdate csaPickupsLayer s rs.
Proof.
  intros Hid. split.
  - unfold hoverState, graphicUpdate.
    destruct (objectId s) as [|v]; [discriminate|].
    destruct (truthy v) eqn:Ev; [|discriminate].
    intros H. injection H as <-. rewrite Ev. cbn [negb strictNeq].
    now rewrite strictEq_refl.
  - unfold graphicUpdate at 1. rewrite Hid. unfold graphicUpdate.
    destruct (truthy (newId csaPickupsLayer rs)) eqn:Et; cbn [negb].
    + destruct (strictNeq (objectId s) (newId csaPickupsLayer rs)) eqn:En.
      * destruct (truthy_newId_result rs Et) as [r Hr]. rewrite Hr.
        cbn. rewrite strictEq_refl. reflexivity.
      * now rewrite En.
    + cbn. f_equal. apply removeOpt_idem.
Qed.

Lemma no_eligible_result rs :
  Forall (fun r => eligible r = false) rs -> result rs = None.
Proof.
  intros H. rewrite result_find.
  destruct (find eligible rs) as [r|] eqn:E; [|reflexivity].
  apply find_some in E. destruct E as [Hin E].
  rewrite Forall_forall in H. rewrite (H r Hin) in E. discriminate.
Qed.

(** C6.  In any state in which the panel and the highlight are in step
    with the variable [highlight] (every state reached by completed runs
    is, by [afterRuns_tracked]), a hit-test without eligible result makes
    the callback remove the highlight drawn, so that none is left, store
    the default graphic in place of a feature id (NoSelection) and show
    the default graphic in the panel; the handle variable and the next
    handle are untouched. *)
Theorem no_eligible_result_resets (s : State) (rs : list ViewHit) :
  tracked s ->
  Forall (fun r => eligible r = false) rs ->
  let s' := graphicUpdate csaPickupsLayer s rs in
  highlights (layerView s') = []
  /\ hoverState s' = NoSelection
  /\ objectId s' = idDefaultGraphic
  /\ feature_graphic s' = defaultGraphic
  /\ highlight s' = highlight s
  /\ nextHandle (layerView s') = nextHandle (layerView s).
Proof.
  intros Hs H s'. subst s'. apply no_eligible_result in H.
  unfold graphicUpdate, newId. rewrite H. cbn.
  split; [now apply removeOpt_tracked|].
  repeat split. destruct (highlight s); reflexivity.
Qed.

(** A truthy id different from the stored one.  The highlight held is
    removed, one highlight is drawn on the hit graphic
    under a new handle, the id is stored and the panel shows the hit
    graphic. *)
Lemma different_truthy_id_moves_highlight
    (runs : list (list ViewHit)) (rs : list ViewHit) (r : ViewHit) :
  let s := afterRuns csaPickupsLayer runs in
  let s' := graphicUpdate csaPickupsLayer s rs in
  result rs = Some r ->
  truthy (newId csaPickupsLayer rs) = true ->
  strictNeq (objectId s) (newId csaPickupsLayer rs) = true ->
  highlights (layerView s') = [(nextHandle (layerView s), graphic r)]
  /\ highlight s' = Some (nextHandle (layerView s))
  /\ hoverState s' = Selected (newId csaPickupsLayer rs)
  /\ feature_graphic s' = hitGraphic (graphic r).
Proof.
  intros s s' Hr Ht Hn. subst s'. unfold graphicUpdate.
  rewrite Ht, Hn, Hr. cbn. unfold hoverState. cbn. rewrite Ht.
  rewrite (removeOpt_tracked s (afterRuns_tracked runs)).
  assert (Hnext : nextHandle (removeOpt (layerView s) (highlight s))
                  = nextHandle (layerView s))
    by (destruct (highlight s); reflexivity).
  rewrite Hnext. repeat split.
Qed.


End HoverFacts.

(** A farm hovered, then hovered again. *)
Lemma same_id_run_is_noop_witness :
  let L := Samples.csaPickupsLayer in
  let rs := [Samples.hit (Samples.pickup 7 "Sauvie Farm")] in
  let s := HoverSync.afterRuns L [rs] in
  HoverSync.newId L rs = HoverSync.newId L rs
  /\ (HoverSync.hoverState s = HoverSync.Selected (HoverSync.newId L rs) ->
      HoverSync.graphicUpdate L s rs = s)
  /\ HoverSync.graphicUpdate L (HoverSync.graphicUpdate L s rs) rs
     = HoverSync.graphicUpdate L s rs.
Proof.
  intros L rs s. split; [reflexivity|].
  apply (same_id_run_is_noop L s rs rs). reflexivity.
Defined.

(** The pointer leaves a highlighted farm for the basemap: the highlight
    drawn on the farm is gone. *)
Lemma no_eligible_result_resets_witness :
  let L := Samples.csaPickupsLayer in
  let farm := Samples.pickup 7 "Sauvie Farm" in
  let s := HoverSync.afterRuns L [[Samples.hit farm]] in
  let rs := [Samples.basemapHit] in
  let s' := HoverSync.graphicUpdate L s rs in
  HoverSync.highlights (HoverSync.layerView s) = [(0, farm)]
  /\ HoverSync.tracked s
  /\ Forall (fun r => HoverSync.eligible r = false) rs
  /\ HoverSync.highlights (HoverSync.layerView s') = []
  /\ HoverSync.hoverState s' = HoverSync.NoSelection
  /\ HoverSync.objectId s' = HoverSync.idDefaultGraphic
  /\ HoverSync.feature_graphic s' = HoverSync.defaultGraphic
  /\ HoverSync.highlight s' = HoverSync.highlight s
  /\ HoverSync.nextHandle (HoverSync.layerView s')
     = HoverSync.nextHandle (HoverSync.layerView s).
Proof.
  intros L farm s rs s'.
  assert (H1 : HoverSync.tracked s).
  { right. exists 0, farm. repeat split. }
  assert (H2 : Forall (fun r => HoverSync.eligible r = false) rs).
  { repeat constructor. }
  split; [reflexivity | split; [exact H1 | split; [exact H2|]]].
  exact (no_eligible_result_resets L s rs H1 H2).
Defined.

(** C7 at a feature whose object id is 0.  With farm 7 selected, the
    pointer moves onto an eligible feature with id 0, which differs from
    the stored id: the old highlight is removed, but no highlight is drawn
    for the hit feature, no id is stored, and the panel shows the default
    graphic. *)
Theorem object_id_zero_is_treated_as_no_result :
  let L := Samples.csaPickupsLayer in
  let s := HoverSync.afterRuns L [[Samples.hit (Samples.pickup 7 "Sauvie Farm")]] in
  let rs := [Samples.hit (Samples.pickup 0 "Zero Acres")] in
  let s' := HoverSync.graphicUpdate L s rs in
  HoverSync.hoverState s = HoverSync.Selected (HoverSync.JNum 7)
  /\ HoverSync.result rs = Some (Samples.hit (Samples.pickup 0 "Zero Acres"))
  /\ HoverSync.newId L rs = HoverSync.JNum 0
  /\ HoverSync.strictNeq (HoverSync.objectId s) (HoverSync.newId L rs) = true
  /\ HoverSync.highlights (HoverSync.layerView s') = []
  /\ HoverSync.hoverState s' = HoverSync.NoSelection
  /\ HoverSync.feature_graphic s' = HoverSync.defaultGraphic.
Proof. cbv zeta. repeat split. Qed.

(** ** The debounced callback under pointer events *)

Section DebounceFacts.
Import HoverSync Debounce.

Variable csaPickupsLayer : Layer.









(** The panel and highlight are what the applied results make of the
    initial state, in order. *)
Lemma run_hover_applied tr : forall s,
  hover s = afterRuns csaPickupsLayer (map snd (applied s)) ->
  hover (run csaPickupsLayer tr s)
  = afterRuns csaPickupsLayer (map snd (applied (run csaPickupsLayer tr s))).
Proof.
  induction tr as [|i tr IH]; intros s H; [assumption|].
  simpl. apply IH. unfold step.
  destruct i as [e|rs]; destruct (running s); cbn; try assumption.
  rewrite map_app. unfold afterRuns in *. rewrite fold_left_app. cbn. now rewrite H.
Qed.

(** Whatever the pointer events and hit-test resolutions, the panel and
    the highlight stay in step. *)
Lemma hover_in_sync_along_traces tr :
  inSync (hover (run csaPickupsLayer tr start)).
Proof.
  rewrite run_hover_applied by reflexivity.
  apply tracked_inSync, afterRuns_tracked.
Qed.


End DebounceFacts.



(** ** The pointer-move listener *)

Section ListenerFacts.
Import PointerMove.

Variable Error : Type.
Variable isAbortError : Error -> bool.

(** C8.  When the debounced call fails, the listener's promise is
    fulfilled (the failure is swallowed) exactly when the failure is an
    abort error; for any other failure it is rejected with that same
    failure, which no handler of the page receives.  A call that succeeds
    stays fulfilled. *)
Theorem only_abort_failures_are_swallowed (error : Error) :
  (onPointerMove isAbortError (Rejected error) = Fulfilled
   <-> isAbortError error = true)
  /\ (onPointerMove isAbortError (Rejected error) = Rejected error
      <-> isAbortError error = false)
  /\ onPointerMove isAbortError Fulfilled = Fulfilled.
Proof.
  unfold onPointerMove, catch, onRejected.
  destruct (isAbortError error); cbn; repeat split; congruence.
Qed.

End ListenerFacts.

(** * Further properties *)

(** ** The chip-selection listener: cards *)

Section FilterCardsMore.
Import ListView FilterHandler.

Lemma includes_perm (a b : list string) (x : string) :
  Permutation a b -> Js.includes a x = Js.includes b x.
Proof.
  intros H. destruct (Js.includes b x) eqn:E.
  - apply includes_In. apply includes_In in E.
    apply Permutation_in with (l := b); [now apply Permutation_sym | assumption].
  - destruct (Js.includes a x) eqn:E'; [|reflexivity].
    apply includes_In in E'. apply (Permutation_in _ H) in E'.
    apply includes_In in E'. congruence.
Qed.

Lemma isMatch_perm pf pf' feature :
  Permutation pf pf' -> isMatch pf feature = isMatch pf' feature.
Proof.
  intros H. unfold isMatch. rewrite (Permutation_length H). f_equal. f_equal.
  apply filter_ext. intros product. now apply includes_perm.
Qed.

(** The count [isMatch] compares, read on the display-safe forms. *)
Lemma isMatch_count pf feature :
  isMatch pf feature = true
  <-> List.length (filter (Js.includes pf) (displaySafe feature)) = List.length pf.
Proof.
  unfold isMatch, displaySafe.
  rewrite <- (filter_map_comm (Js.replace " " "_") (Js.includes pf)), length_map.
  apply Nat.eqb_eq.
Qed.

(** For a record whose display-safe forms are distinct, [isMatch] holds
    only of a selection without repeats, every value of which is one of
    those forms. *)
Lemma isMatch_sound pf feature :
  NoDup (displaySafe feature) -> isMatch pf feature = true ->
  NoDup pf /\ incl pf (displaySafe feature).
Proof.
  intros Hl Hm. apply isMatch_count in Hm.
  assert (Hnd : NoDup (filter (Js.includes pf) (displaySafe feature)))
    by now apply NoDup_filter.
  assert (Hpf : NoDup pf).
  { eapply NoDup_incl_NoDup; [exact Hnd | lia |].
    intros x Hx. apply filter_In in Hx. now apply includes_In. }
  split; [assumption|]. now apply (count_eq_length_incl pf _ Hpf Hl).
Qed.

Lemma filter_Subseq {A} (f : A -> bool) (l : list A) : Debounce.Subseq (filter f l) l.
Proof.
  induction l as [|a l IH]; simpl; [apply Debounce.Subseq_nil|].
  destruct (f a); [now apply Debounce.Subseq_take | now apply Debounce.Subseq_skip].
Qed.

(** X1.  The cards do not depend on the order in which the chips were
    selected, nor on what the container held before. *)
Theorem cards_ignore_selection_order
    (features : list FeatureRecord) (sel sel' : list Chip) (p p' : Page) :
  Permutation (productFilter sel) (productFilter sel') ->
  cards (container (onChipGroupSelect features sel p))
  = cards (container (onChipGroupSelect features sel' p')).
Proof.
  intros H. rewrite 2 onChipGroupSelect_cards.
  apply filter_ext. intros f. now apply isMatch_perm.
Qed.

Lemma cards_ignore_selection_order_witness :
  Permutation (productFilter (Samples.chips ["A"; "B"]))
              (productFilter (Samples.chips ["B"; "A"]))
  /\ cards (container (onChipGroupSelect [Samples.farmAB; Samples.farmA]
                         (Samples.chips ["A"; "B"]) Samples.blankPage))
     = cards (container (onChipGroupSelect [Samples.farmAB; Samples.farmA]
                           (Samples.chips ["B"; "A"]) Samples.blankPage)).
Proof.
  assert (H : Permutation (productFilter (Samples.chips ["A"; "B"]))
                          (productFilter (Samples.chips ["B"; "A"])))
    by apply perm_swap.
  split; [exact H|].
  exact (cards_ignore_selection_order [Samples.farmAB; Samples.farmA]
           (Samples.chips ["A"; "B"]) (Samples.chips ["B"; "A"])
           Samples.blankPage Samples.blankPage H).
Defined.

(** X2.  A record with fewer categories than chips selected is never
    shown. *)
Theorem record_with_fewer_categories_is_not_shown
    (features : list FeatureRecord) (sel : list Chip) (p : Page) (f : FeatureRecord) :
  List.length (products f) < List.length sel ->
  ~ In f (cards (container (onChipGroupSelect features sel p))).
Proof.
  intros Hlt Hin. rewrite onChipGroupSelect_cards in Hin.
  apply filter_In in Hin. destruct Hin as [_ Hm].
  unfold isMatch in Hm. apply Nat.eqb_eq in Hm.
  unfold productFilter in Hm. rewrite length_map in Hm.
  pose proof (filter_length_le
                (fun product => Js.includes (map value sel) (Js.replace " " "_" product))
                (products f)) as Hle.
  lia.
Qed.

Lemma record_with_fewer_categories_is_not_shown_witness :
  List.length (products Samples.farmA) < List.length (Samples.chips ["A"; "B"])
  /\ ~ In Samples.farmA
         (cards (container (onChipGroupSelect [Samples.farmAB; Samples.farmA]
                              (Samples.chips ["A"; "B"]) Samples.blankPage))).
Proof.
  assert (H : List.length (products Samples.farmA) < List.length (Samples.chips ["A"; "B"]))
    by (simpl; lia).
  split; [exact H|].
  exact (record_with_fewer_categories_is_not_shown [Samples.farmAB; Samples.farmA]
           (Samples.chips ["A"; "B"]) Samples.blankPage Samples.farmA H).
Defined.

(** X3.  Whatever the container held, after the listener it holds one
    empty text node followed by cards only, and the cards are records of
    [features] in their order, none added and none repeated beyond
    [features]. *)
Theorem container_is_rebuilt_from_features
    (features : list FeatureRecord) (sel : list Chip) (p : Page) :
  let c := container (onChipGroupSelect features sel p) in
  c = TextNode "" :: map Card (cards c)
  /\ Debounce.Subseq (cards c) features.
Proof.
  intros c. subst c. rewrite onChipGroupSelect_cards.
  split; [|apply filter_Subseq].
  unfold onChipGroupSelect. cbn [container]. now rewrite displayMatches_filter.
Qed.

(** X12.  A record whose display-safe forms are distinct is shown only if
    every selected value is one of them and no value is selected twice. *)
Theorem shown_record_has_every_selected_value
    (features : list FeatureRecord) (sel : list Chip) (p : Page) (f : FeatureRecord) :
  NoDup (displaySafe f) ->
  In f (cards (container (onChipGroupSelect features sel p))) ->
  NoDup (productFilter sel) /\ incl (productFilter sel) (displaySafe f).
Proof.
  intros Hl Hin. rewrite onChipGroupSelect_cards in Hin.
  apply filter_In in Hin. destruct Hin as [_ Hm]. now apply isMatch_sound.
Qed.

Lemma shown_record_has_every_selected_value_witness :
  NoDup (displaySafe Samples.flowerFarm)
  /\ In Samples.flowerFarm
        (cards (container (onChipGroupSelect [Samples.farmA; Samples.flowerFarm]
                             (Samples.chips ["Cut_Flowers"]) Samples.blankPage)))
  /\ NoDup (productFilter (Samples.chips ["Cut_Flowers"]))
  /\ incl (productFilter (Samples.chips ["Cut_Flowers"])) (displaySafe Samples.flowerFarm).
Proof.
  assert (H1 : NoDup (displaySafe Samples.flowerFarm)).
  { repeat constructor; simpl; intuition discriminate. }
  assert (H2 : In Samples.flowerFarm
                 (cards (container (onChipGroupSelect [Samples.farmA; Samples.flowerFarm]
                                      (Samples.chips ["Cut_Flowers"]) Samples.blankPage)))).
  { simpl. now left. }
  split; [exact H1 | split; [exact H2|]].
  exact (shown_record_has_every_selected_value _ _ _ _ H1 H2).
Defined.

(** X13.  Selecting further chips only narrows the card list: with
    records of distinct display-safe forms, every card shown for a
    selection is shown for any repeat-free part of that selection. *)
Theorem more_chips_show_fewer_cards
    (features : list FeatureRecord) (sel sel' : list Chip) (p p' : Page) :
  Forall (fun f => NoDup (displaySafe f)) features ->
  NoDup (productFilter sel) ->
  incl (productFilter sel) (productFilter sel') ->
  incl (cards (container (onChipGroupSelect features sel' p')))
       (cards (container (onChipGroupSelect features sel p))).
Proof.
  intros Hfeat Hsel Hincl f. rewrite 2 onChipGroupSelect_cards, 2 filter_In.
  intros [Hin Hm]. split; [assumption|].
  rewrite Forall_forall in Hfeat. specialize (Hfeat f Hin).
  apply (isMatch_sound _ _ Hfeat) in Hm. destruct Hm as [_ Hm].
  rewrite (isMatch_supersetOf _ _ Hsel Hfeat). apply supersetOf_incl.
  intros x Hx. apply Hm, Hincl, Hx.
Qed.

Lemma more_chips_show_fewer_cards_witness :
  Forall (fun f => NoDup (displaySafe f)) [Samples.farmAB; Samples.farmA]
  /\ NoDup (productFilter (Samples.chips ["A"]))
  /\ incl (productFilter (Samples.chips ["A"])) (productFilter (Samples.chips ["A"; "B"]))
  /\ incl (cards (container (onChipGroupSelect [Samples.farmAB; Samples.farmA]
                               (Samples.chips ["A"; "B"]) Samples.blankPage)))
          (cards (container (onChipGroupSelect [Samples.farmAB; Samples.farmA]
                               (Samples.chips ["A"]) Samples.blankPage))).
Proof.
  assert (H1 : Forall (fun f => NoDup (displaySafe f)) [Samples.farmAB; Samples.farmA]).
  { repeat constructor; simpl; intuition discriminate. }
  assert (H2 : NoDup (productFilter (Samples.chips ["A"]))).
  { repeat constructor; simpl; intuition. }
  assert (H3 : incl (productFilter (Samples.chips ["A"]))
                    (productFilter (Samples.chips ["A"; "B"]))).
  { intros x Hx. simpl in *. tauto. }
  split; [exact H1 | split; [exact H2 | split; [exact H3|]]].
  exact (more_chips_show_fewer_cards _ _ _ Samples.blankPage Samples.blankPage H1 H2 H3).
Defined.

End FilterCardsMore.

(** ** The view-ready listener and the chip-selection listener *)

Section FirstRendering.
Import ListView FilterHandler ViewReady.

Lemma displayAll_app features : forall c,
  displayAll features c = c ++ map Card features.
Proof.
  unfold displayAll.
  induction features as [|f fs IH]; intros c; simpl.
  - now rewrite app_nil_r.
  - rewrite IH. unfold displayCard. now rewrite <- app_assoc.
Qed.

(** X11.  The first rendering appends one card per record, in order,
    after what the container holds; clearing the chip selection later
    gives the cards of a first rendering into an empty container, behind
    one empty text node. *)
Theorem empty_selection_restores_first_rendering
    (features : list FeatureRecord) (c : list Node) (p : Page) :
  cards (displayAll features c) = cards c ++ features
  /\ container (onChipGroupSelect features [] p)
     = TextNode "" :: displayAll features [].
Proof.
  split.
  - rewrite displayAll_app. unfold cards. rewrite flat_map_app.
    fold (cards (map Card features)). now rewrite cards_map_Card.
  - unfold onChipGroupSelect. cbn [container productFilter map].
    rewrite displayMatches_filter, displayAll_app. cbn [app]. f_equal. f_equal.
    induction features as [|f fs IH]; simpl; [reflexivity|].
    rewrite isMatch_nil. now rewrite IH.
Qed.

End FirstRendering.

(** ** The chip-selection listener: the map filter *)

Section FilterExpressionMore.
Import FilterHandler Sql.

(** Every pattern matches its own text. *)
Lemma like_refl pat : like pat pat = true.
Proof.
  induction pat as [|p pat IH]; [reflexivity|].
  destruct (Ascii.eqb p "%") eqn:Ep.
  - apply Ascii.eqb_eq in Ep. subst p. apply like_percent.
    now exists "%"%string, pat.
  - simpl. rewrite Ep. destruct (Ascii.eqb p "_"); [exact IH|].
    now rewrite Ascii.eqb_refl.
Qed.

(** Patterns compose along concatenation. *)
Lemma like_app a : forall b x y,
  like a x = true -> like b y = true -> like (a ++ b) (x ++ y) = true.
Proof.
  induction a as [|p a IH]; intros b x y Ha Hb.
  - destruct x; [exact Hb | discriminate Ha].
  - change ((String p a ++ b)%string) with (String p (a ++ b)).
    destruct (Ascii.eqb p "%") eqn:Ep; [|destruct (Ascii.eqb p "_") eqn:Eu].
    + apply Ascii.eqb_eq in Ep. subst p.
      apply like_percent in Ha. destruct Ha as [pre [rest [-> H]]].
      apply like_percent. exists pre, (rest ++ y)%string.
      split; [apply append_assoc | now apply IH].
    + simpl in Ha |- *. rewrite Ep, Eu in Ha |- *.
      destruct x as [|c x]; [discriminate|]. simpl. now apply IH.
    + simpl in Ha |- *. rewrite Ep, Eu in Ha |- *.
      destruct x as [|c x]; [discriminate|]. simpl.
      apply andb_true_iff in Ha. destruct Ha as [Hc Ha].
      rewrite Hc. now apply IH.
Qed.

(** The display-safe form of a category, read as a pattern, matches the
    category as written: the underscore stands for the space it replaced. *)
Lemma like_displaySafe product : like (Js.replace " " "_" product) product = true.
Proof.
  induction product as [|c s IH]; [reflexivity|].
  simpl. destruct (Ascii.eqb c " ") eqn:Ec.
  - simpl. apply like_refl.
  - destruct (Ascii.eqb c "%") eqn:Ep.
    + apply Ascii.eqb_eq in Ep. subst c. apply like_percent.
      now exists "%"%string, s.
    + simpl. rewrite Ep. destruct (Ascii.eqb c "_"); [exact IH|].
      now rewrite Ascii.eqb_refl.
Qed.

Lemma join_cons_cons sep x y l :
  Js.join sep (x :: y :: l) = (x ++ sep ++ Js.join sep (y :: l))%string.
Proof. reflexivity. Qed.

Lemma like_join_displaySafe categories :
  like (Js.join ", " (map (Js.replace " " "_") categories)) (Js.join ", " categories) = true.
Proof.
  induction categories as [|c cats IH]; [reflexivity|].
  destruct cats as [|d cats]; [apply like_displaySafe|].
  cbn [map] in IH |- *. rewrite 2 join_cons_cons.
  apply like_app; [apply like_displaySafe|].
  apply like_app; [apply like_refl | exact IH].
Qed.

(** X4.  With no chip selected the expression set on the layer view is
    [Main_Products LIKE '%%']: it matches every feature whose products
    field holds a string, the empty string included, and no feature whose
    products field is null. *)
Theorem empty_selection_filter_matches_every_non_null_field
    (features : list ListView.FeatureRecord) (p : Page) (main_products : option string) :
  exists e,
    featureEffect (onChipGroupSelect features [] p) = Some e
    /\ where_ (filter_ e) = "Main_Products LIKE '%%'"
    /\ SqlNull.evalWhereOn (where_ (filter_ e)) main_products
       = Some (match main_products with Some _ => true | None => false end).
Proof.
  eexists. split; [reflexivity|]. split; [reflexivity|]. cbn [filter_ productFilter map].
  unfold SqlNull.evalWhereOn.
  destruct main_products as [s|]; rewrite evalWhere_featureFilter by reflexivity;
    [|reflexivity].
  f_equal. apply like_between_percents. now exists ""%string, ""%string, s.
Qed.

(** X5.  When the selected chips carry, in selection order, the
    display-safe forms of some categories (free of quotes), the expression
    matches every feature whose raw products field lists those categories
    as written, one after the other separated by a comma and a space. *)
Theorem filter_matches_field_listing_selected_categories
    (features : list ListView.FeatureRecord) (sel : list Chip) (p : Page)
    (categories : list string) (main_products : string) :
  productFilter sel = map (Js.replace " " "_") categories ->
  hasQuote (Js.join ", " (productFilter sel)) = false ->
  occursIn (Js.join ", " categories) main_products ->
  exists e,
    featureEffect (onChipGroupSelect features sel p) = Some e
    /\ evalWhere (where_ (filter_ e)) main_products = Some true.
Proof.
  intros Hsel Hq [pre [post Heq]].
  eexists. split; [reflexivity|]. cbn [filter_].
  rewrite evalWhere_featureFilter by assumption. f_equal.
  apply like_between_percents. exists pre, (Js.join ", " categories), post.
  split; [assumption|]. rewrite Hsel. apply like_join_displaySafe.
Qed.

Lemma filter_matches_field_listing_selected_categories_witness :
  let sel := Samples.chips ["Cut_Flowers"; "Eggs"] in
  let field := "Vegetables, Cut Flowers, Eggs, Honey" in
  productFilter sel = map (Js.replace " " "_") ["Cut Flowers"; "Eggs"]
  /\ hasQuote (Js.join ", " (productFilter sel)) = false
  /\ occursIn (Js.join ", " ["Cut Flowers"; "Eggs"]) field
  /\ exists e,
       featureEffect (onChipGroupSelect [] sel Samples.blankPage) = Some e
       /\ evalWhere (where_ (filter_ e)) field = Some true.
Proof.
  intros sel field.
  assert (H1 : productFilter sel = map (Js.replace " " "_") ["Cut Flowers"; "Eggs"])
    by reflexivity.
  assert (H2 : hasQuote (Js.join ", " (productFilter sel)) = false) by reflexivity.
  assert (H3 : occursIn (Js.join ", " ["Cut Flowers"; "Eggs"]) field)
    by now exists "Vegetables, "%string, ", Honey"%string.
  split; [exact H1 | split; [exact H2 | split; [exact H3|]]].
  exact (filter_matches_field_listing_selected_categories
           [] sel Samples.blankPage ["Cut Flowers"; "Eggs"] field H1 H2 H3).
Defined.

End FilterExpressionMore.

(** ** The hover callback: the stored id *)

Section HoverMore.
Import HoverSync HoverInvariant.

Variable csaPickupsLayer : Layer.

Lemma newId_of_result rs r :
  result rs = Some r -> newId csaPickupsLayer rs = objectIdOf csaPickupsLayer (graphic r).
Proof. intros H. unfold newId, objectIdOf. now rewrite H. Qed.

Lemma graphicUpdate_idTracked s rs :
  idTracked csaPickupsLayer s ->
  idTracked csaPickupsLayer (graphicUpdate csaPickupsLayer s rs).
Proof.
  intros Hs. unfold graphicUpdate.
  destruct (truthy (newId csaPickupsLayer rs)) eqn:Et; cbn [negb].
  - destruct (strictNeq (objectId s) (newId csaPickupsLayer rs)); [|assumption].
    destruct (result rs) as [r|] eqn:Er; [|assumption].
    unfold idTracked. cbn. rewrite <- (newId_of_result rs r Er). now split.
  - unfold idTracked. cbn. now left.
Qed.

Lemma afterRuns_idTracked runs :
  idTracked csaPickupsLayer (afterRuns csaPickupsLayer runs).
Proof.
  unfold afterRuns.
  assert (H : idTracked csaPickupsLayer initial) by (right; reflexivity).
  revert H. generalize initial.
  induction runs as [|rs runs IH]; intros s Hs; simpl; [assumption|].
  now apply IH, graphicUpdate_idTracked.
Qed.

Lemma afterRuns_snoc runs rs :
  afterRuns csaPickupsLayer (runs ++ [rs])
  = graphicUpdate csaPickupsLayer (afterRuns csaPickupsLayer runs) rs.
Proof. unfold afterRuns. now rewrite fold_left_app. Qed.

(** X6.  After any sequence of completed runs, the stored id is the
    object id of the graphic the panel shows, and no id is stored exactly
    when the panel shows the default graphic. *)
Theorem stored_id_is_the_panel_graphic_id (runs : list (list ViewHit)) :
  match feature_graphic (afterRuns csaPickupsLayer runs) with
  | defaultGraphic => hoverState (afterRuns csaPickupsLayer runs) = NoSelection
  | hitGraphic g =>
      hoverState (afterRuns csaPickupsLayer runs) = Selected (objectIdOf csaPickupsLayer g)
  end.
Proof.
  pose proof (afterRuns_idTracked runs) as H. unfold idTracked in H. unfold hoverState.
  destruct (feature_graphic (afterRuns csaPickupsLayer runs)) as [|g].
  - destruct H as [-> | ->]; reflexivity.
  - destruct H as [-> Ht]. now rewrite Ht.
Qed.

(** X7.  The selection stored after a run is decided by that run's
    hit-test alone, whatever the state before: the id of the first
    eligible result when it is truthy, none otherwise. *)
Theorem selection_follows_last_run (s : State) (rs : list ViewHit) :
  hoverState (graphicUpdate csaPickupsLayer s rs)
  = if truthy (newId csaPickupsLayer rs)
    then Selected (newId csaPickupsLayer rs)
    else NoSelection.
Proof.
  unfold graphicUpdate.
  destruct (truthy (newId csaPickupsLayer rs)) eqn:Et; cbn [negb]; [|reflexivity].
  destruct (strictNeq (objectId s) (newId csaPickupsLayer rs)) eqn:En.
  - destruct (truthy_newId_result csaPickupsLayer rs Et) as [r Hr]. rewrite Hr.
    unfold hoverState. cbn. now rewrite Et.
  - unfold hoverState. destruct (objectId s) as [|v]; [discriminate En|].
    cbn in En. apply negb_false_iff, strictEq_eq in En. subst v. now rewrite Et.
Qed.

Lemma getAttribute_absent attrs key :
  (forall v, ~ In (key, v) attrs) -> getAttribute attrs key = JUndefined.
Proof.
  induction attrs as [|[k v] attrs IH]; intros H; [reflexivity|].
  simpl. destruct (String.eqb k key) eqn:E.
  - apply String.eqb_eq in E. subst k. exfalso. apply (H v). now left.
  - apply IH. intros w Hw. apply (H w). now right.
Qed.

(** X8.  When the graphic of the first eligible result has no attribute
    under the layer's object-id field, the callback does exactly what it
    does on a hit-test without results, whatever results follow. *)
Theorem result_without_object_id_is_handled_as_no_result
    (s : State) (rs : list ViewHit) (r : ViewHit) :
  result rs = Some r ->
  (forall v, ~ In (objectIdField csaPickupsLayer, v) (attributes (graphic r))) ->
  graphicUpdate csaPickupsLayer s rs = graphicUpdate csaPickupsLayer s [].
Proof.
  intros Hr Habs. unfold graphicUpdate.
  rewrite (newId_of_result rs r Hr). unfold objectIdOf.
  now rewrite (getAttribute_absent _ _ Habs).
Qed.

(** X9.  After a run that reset the panel, the next result with a truthy
    id is always highlighted and shown, also when it is the feature that
    was selected before the reset. *)
Theorem hovering_again_after_reset_highlights
    (runs : list (list ViewHit)) (rs0 rs : list ViewHit) (r : ViewHit) :
  truthy (newId csaPickupsLayer rs0) = false ->
  result rs = Some r ->
  truthy (newId csaPickupsLayer rs) = true ->
  let s := afterRuns csaPickupsLayer runs in
  let s' := graphicUpdate csaPickupsLayer (graphicUpdate csaPickupsLayer s rs0) rs in
  highlights (layerView s') = [(nextHandle (layerView s), graphic r)]
  /\ feature_graphic s' = hitGraphic (graphic r)
  /\ hoverState s' = Selected (newId csaPickupsLayer rs).
Proof.
  intros H0 Hr Ht s s'. subst s s'. rewrite <- afterRuns_snoc.
  assert (Hreset : afterRuns csaPickupsLayer (runs ++ [rs0])
                   = {| highlight := highlight (afterRuns csaPickupsLayer runs);
                        objectId := idDefaultGraphic;
                        feature_graphic := defaultGraphic;
                        layerView := removeOpt (layerView (afterRuns csaPickupsLayer runs))
                                               (highlight (afterRuns csaPickupsLayer runs)) |}).
  { rewrite afterRuns_snoc. unfold graphicUpdate. now rewrite H0. }
  destruct (different_truthy_id_moves_highlight csaPickupsLayer (runs ++ [rs0]) rs r Hr Ht)
    as [Hh [_ [Hs Hp]]].
  { now rewrite Hreset. }
  split; [|split; assumption].
  rewrite Hh, Hreset. cbn.
  destruct (highlight (afterRuns csaPickupsLayer runs)); reflexivity.
Qed.

(** X10.  No highlight is left behind: any highlight drawn is the one
    whose handle the variable [highlight] holds, on the graphic the panel
    shows, so the next [remove] clears it. *)
Theorem drawn_highlight_is_the_stored_handle
    (runs : list (list ViewHit)) (h : Handle) (g : Graphic) :
  In (h, g) (highlights (layerView (afterRuns csaPickupsLayer runs))) ->
  highlight (afterRuns csaPickupsLayer runs) = Some h
  /\ feature_graphic (afterRuns csaPickupsLayer runs) = hitGraphic g
  /\ highlights (removeOpt (layerView (afterRuns csaPickupsLayer runs))
                           (highlight (afterRuns csaPickupsLayer runs))) = [].
Proof.
  intros Hin. pose proof (afterRuns_tracked csaPickupsLayer runs) as Ht.
  split; [|split; [|now apply removeOpt_tracked]];
    destruct Ht as [[_ He] | [h' [g' [Hp [Hh Hv]]]]];
    try (rewrite He in Hin; contradiction);
    rewrite Hh in Hin; destruct Hin as [Heq | []]; injection Heq as <- <-; assumption.
Qed.

End HoverMore.

Lemma result_without_object_id_is_handled_as_no_result_witness :
  let L := Samples.csaPickupsLayer in
  let s := HoverSync.afterRuns L [[Samples.hit MoreSamples.sauvie]] in
  let rs := [Samples.basemapHit; MoreSamples.anonymousHit; Samples.hit MoreSamples.sauvie] in
  HoverSync.result rs = Some MoreSamples.anonymousHit
  /\ (forall v, ~ In (HoverSync.objectIdField L, v)
                    (HoverSync.attributes (HoverSync.graphic MoreSamples.anonymousHit)))
  /\ HoverSync.graphicUpdate L s rs = HoverSync.graphicUpdate L s [].
Proof.
  intros L s rs.
  assert (H1 : HoverSync.result rs = Some MoreSamples.anonymousHit) by reflexivity.
  assert (H2 : forall v, ~ In (HoverSync.objectIdField L, v)
                           (HoverSync.attributes (HoverSync.graphic MoreSamples.anonymousHit))).
  { intros v [H | []]. discriminate H. }
  split; [exact H1 | split; [exact H2|]].
  exact (result_without_object_id_is_handled_as_no_result L s rs
           MoreSamples.anonymousHit H1 H2).
Defined.

Lemma hovering_again_after_reset_highlights_witness :
  let L := Samples.csaPickupsLayer in
  let rs := [Samples.hit MoreSamples.sauvie] in
  let s := HoverSync.afterRuns L [rs] in
  let s' := HoverSync.graphicUpdate L (HoverSync.graphicUpdate L s []) rs in
  HoverSync.truthy (HoverSync.newId L []) = false
  /\ HoverSync.result rs = Some (Samples.hit MoreSamples.sauvie)
  /\ HoverSync.truthy (HoverSync.newId L rs) = true
  /\ HoverSync.highlights (HoverSync.layerView s')
     = [(HoverSync.nextHandle (HoverSync.layerView s),
         HoverSync.graphic (Samples.hit MoreSamples.sauvie))]
  /\ HoverSync.feature_graphic s'
     = HoverSync.hitGraphic (HoverSync.graphic (Samples.hit MoreSamples.sauvie))
  /\ HoverSync.hoverState s' = HoverSync.Selected (HoverSync.newId L rs).
Proof.
  intros L rs s s'.
  assert (H1 : HoverSync.truthy (HoverSync.newId L []) = false) by reflexivity.
  assert (H2 : HoverSync.result rs = Some (Samples.hit MoreSamples.sauvie)) by reflexivity.
  assert (H3 : HoverSync.truthy (HoverSync.newId L rs) = true) by reflexivity.
  split; [exact H1 | split; [exact H2 | split; [exact H3|]]].
  exact (hovering_again_after_reset_highlights L [rs] [] rs
           (Samples.hit MoreSamples.sauvie) H1 H2 H3).
Defined.

Lemma drawn_highlight_is_the_stored_handle_witness :
  let L := Samples.csaPickupsLayer in
  let s := HoverSync.afterRuns L [[Samples.hit MoreSamples.sauvie]] in
  In (0, MoreSamples.sauvie) (HoverSync.highlights (HoverSync.layerView s))
  /\ HoverSync.highlight s = Some 0
  /\ HoverSync.feature_graphic s = HoverSync.hitGraphic MoreSamples.sauvie
  /\ HoverSync.highlights (HoverSync.removeOpt (HoverSync.layerView s) (HoverSync.highlight s))
     = [].
Proof.
  intros L s.
  assert (H : In (0, MoreSamples.sauvie) (HoverSync.highlights (HoverSync.layerView s)))
    by (left; reflexivity).
  split; [exact H|].
  exact (drawn_highlight_is_the_stored_handle L [[Samples.hit MoreSamples.sauvie]]
           0 MoreSamples.sauvie H).
Defined.
